(** * The generation pipeline of [App.tsx]

    The component [App] keeps seven pieces of React state and changes them from
    two handlers, [handleImageUpload] and [handleSubmit]; [getApiKeyStatus]
    inspects the configured credential.  The handlers are embedded as the lists
    of effects they perform, grouped by the JavaScript task in which they run:
    React commits the queued state updates at the end of a task, so a task is
    the unit at which the display observes the state. *)

From Stdlib Require Import List PeanoNat NArith Bool Ascii Lia.
From Stdlib Require String.
Import String.StringSyntax.
Delimit Scope string_scope with string.
Import ListNotations.
Local Open Scope N_scope.
Local Open Scope list_scope.

(** ** JavaScript strings *)

(** A JavaScript string is a sequence of UTF-16 code units. *)
Definition jsstring := list N.

(** The code units of a source literal (all literals of the file are ASCII). *)
Definition lit (s : String.string) : jsstring :=
  map N_of_ascii (String.list_ascii_of_string s).

Arguments lit s%_string.

(** A string is truthy when it is not empty. *)
Definition truthy (s : jsstring) : bool :=
  match s with [] => false | _ :: _ => true end.

(** [x || fallback] where [x] is a string or [undefined]. *)
Definition or_else (x : option jsstring) (fallback : jsstring) : jsstring :=
  match x with
  | Some m => if truthy m then m else fallback
  | None => fallback
  end.

(** White space and line terminators, the code units [String.prototype.trim]
    strips. *)
Definition isWhiteSpace (c : N) : bool :=
  ((9 <=? c) && (c <=? 13))
  || (c =? 32) || (c =? 160) || (c =? 5760)
  || ((8192 <=? c) && (c <=? 8202))
  || (c =? 8232) || (c =? 8233) || (c =? 8239) || (c =? 8287)
  || (c =? 12288) || (c =? 65279).

Fixpoint trimStart (s : jsstring) : jsstring :=
  match s with
  | [] => []
  | c :: rest => if isWhiteSpace c then trimStart rest else s
  end.

Definition trimEnd (s : jsstring) : jsstring := rev (trimStart (rev s)).

Definition trim (s : jsstring) : jsstring := trimEnd (trimStart s).

(** [s.split(sep)] for a separator of one code unit. *)
Fixpoint split_aux (sep : N) (s acc : jsstring) : list jsstring :=
  match s with
  | [] => [rev acc]
  | c :: rest =>
      if c =? sep then rev acc :: split_aux sep rest []
      else split_aux sep rest (c :: acc)
  end.

Definition split (sep : N) (s : jsstring) : list jsstring := split_aux sep s [].

Definition comma : N := 44.

(** [s.startsWith(p)] *)
Fixpoint startsWith (s p : jsstring) : bool :=
  match p, s with
  | [], _ => true
  | _ :: _, [] => false
  | a :: p', b :: s' => (a =? b) && startsWith s' p'
  end.

Fixpoint jsstring_eqb (a b : jsstring) : bool :=
  match a, b with
  | [], [] => true
  | x :: a', y :: b' => (x =? y) && jsstring_eqb a' b'
  | _, _ => false
  end.

(** ** Types of [types.ts] and the component state *)

(** A DOM [File]: its MIME type, which the component reads, and its bytes,
    which only the reader sees. *)
Record File := { type : jsstring; bytes : list N }.

Record ImageFileWithPreview := { file : File; previewUrl : jsstring }.

Inductive AppState :=
| Idle
| LoadingDescriptivePrompt
| LoadingGeneratedImage
| Success
| Error.

Definition AppState_eqb (a b : AppState) : bool :=
  match a, b with
  | Idle, Idle | LoadingDescriptivePrompt, LoadingDescriptivePrompt
  | LoadingGeneratedImage, LoadingGeneratedImage
  | Success, Success | Error, Error => true
  | _, _ => false
  end.

(** The seven [useState] cells of [App]. *)
Record Store := {
  uploadedImage : option ImageFileWithPreview;
  userPrompt : jsstring;
  isLoading : bool;
  generatedImageUrl : option jsstring;
  error : option jsstring;
  appState : AppState;
  intermediatePrompt : option jsstring
}.

(** The initial values given to [useState]. *)
Definition initial : Store :=
  {| uploadedImage := None; userPrompt := []; isLoading := false;
     generatedImageUrl := None; error := None; appState := Idle;
     intermediatePrompt := None |}.

(** A thrown value, as the [catch] blocks use it: an object whose [message]
    is a string or is missing. *)
Record JsError := { message : option jsstring }.

(** ** Effects *)

Inductive Event :=
| setUploadedImage (v : option ImageFileWithPreview)
| setUserPrompt (v : jsstring)
| setIsLoading (v : bool)
| setGeneratedImageUrl (v : option jsstring)
| setError (v : option jsstring)
| setAppState (v : AppState)
| setIntermediatePrompt (v : option jsstring)
| readAsDataURL_called (f : File)
| generateDescriptivePrompt_called
    (base64Data : option jsstring) (mimeType userPrompt : jsstring)
| generateImageFromPrompt_called (descriptivePrompt : jsstring)
| console_error (label : jsstring) (err : JsError)
| uncaught_TypeError.

(** The events of one task, in program order. *)
Definition Task := list Event.

(** The effect of one event on the state cells. *)
Definition write (s : Store) (e : Event) : Store :=
  match e with
  | setUploadedImage v =>
      {| uploadedImage := v; userPrompt := userPrompt s;
         isLoading := isLoading s; generatedImageUrl := generatedImageUrl s;
         error := error s; appState := appState s;
         intermediatePrompt := intermediatePrompt s |}
  | setUserPrompt v =>
      {| uploadedImage := uploadedImage s; userPrompt := v;
         isLoading := isLoading s; generatedImageUrl := generatedImageUrl s;
         error := error s; appState := appState s;
         intermediatePrompt := intermediatePrompt s |}
  | setIsLoading v =>
      {| uploadedImage := uploadedImage s; userPrompt := userPrompt s;
         isLoading := v; generatedImageUrl := generatedImageUrl s;
         error := error s; appState := appState s;
         intermediatePrompt := intermediatePrompt s |}
  | setGeneratedImageUrl v =>
      {| uploadedImage := uploadedImage s; userPrompt := userPrompt s;
         isLoading := isLoading s; generatedImageUrl := v;
         error := error s; appState := appState s;
         intermediatePrompt := intermediatePrompt s |}
  | setError v =>
      {| uploadedImage := uploadedImage s; userPrompt := userPrompt s;
         isLoading := isLoading s; generatedImageUrl := generatedImageUrl s;
         error := v; appState := appState s;
         intermediatePrompt := intermediatePrompt s |}
  | setAppState v =>
      {| uploadedImage := uploadedImage s; userPrompt := userPrompt s;
         isLoading := isLoading s; generatedImageUrl := generatedImageUrl s;
         error := error s; appState := v;
         intermediatePrompt := intermediatePrompt s |}
  | setIntermediatePrompt v =>
      {| uploadedImage := uploadedImage s; userPrompt := userPrompt s;
         isLoading := isLoading s; generatedImageUrl := generatedImageUrl s;
         error := error s; appState := appState s;
         intermediatePrompt := v |}
  | _ => s
  end.

(** The state React commits after a task. *)
Definition commit (s : Store) (t : Task) : Store := fold_left write t s.

(** The state after a sequence of tasks. *)
Definition commit_all (s : Store) (ts : list Task) : Store :=
  fold_left commit ts s.

(** The states the display observes during a sequence of tasks: the one
    committed after each task. *)
Fixpoint snapshots (s : Store) (ts : list Task) : list Store :=
  match ts with
  | [] => []
  | t :: ts' => commit s t :: snapshots (commit s t) ts'
  end.

(** The states after each event of a task, in order. *)
Fixpoint history (s : Store) (t : Task) : list Store :=
  match t with
  | [] => []
  | e :: t' => write s e :: history (write s e) t'
  end.

(** A sequence of values without its immediate repetitions. *)
Fixpoint destutter (l : list AppState) : list AppState :=
  match l with
  | [] => []
  | a :: l' =>
      match l' with
      | [] => [a]
      | b :: _ => if AppState_eqb a b then destutter l' else a :: destutter l'
      end
  end.

(** The successive values [appState] takes from [s] on, through the events of
    [ts]. *)
Definition appState_trace (s : Store) (ts : list Task) : list AppState :=
  destutter (map appState (s :: history s (concat ts))).

(** [a] is immediately followed by [b] in [l]. *)
Fixpoint follows (a b : AppState) (l : list AppState) : bool :=
  match l with
  | x :: (y :: _) as l' => (AppState_eqb x a && AppState_eqb y b) || follows a b l'
  | _ => false
  end.

Definition is_image_call (e : Event) : bool :=
  match e with generateImageFromPrompt_called _ => true | _ => false end.

Definition is_descriptive_call (e : Event) : bool :=
  match e with generateDescriptivePrompt_called _ _ _ => true | _ => false end.

(** How many times a run invoked each service. *)
Definition image_calls (ts : list Task) : nat :=
  length (filter is_image_call (concat ts)).

Definition descriptive_calls (ts : list Task) : nat :=
  length (filter is_descriptive_call (concat ts)).

(** ** [handleImageUpload] *)

Definition handleImageUpload (file : File) (previewUrl : jsstring) : Task :=
  [ setUploadedImage (Some {| file := file; previewUrl := previewUrl |});
    setGeneratedImageUrl None;
    setError None;
    setAppState Idle ].

(** ** [handleSubmit]

    The function runs in up to four tasks: its synchronous part, the reader's
    events, and the two continuations after an [await].  Each part is given as
    the task it performs. *)

(** A settled promise of a service. *)
Inductive Settled :=
| Fulfilled (value : jsstring)
| Rejected (reason : JsError).

(** The guard of the first lines failed. *)
Definition validation_failed : Task :=
  [ setError (Some (lit "Please upload an image and provide an editing prompt.")) ].

(** From the guard to [reader.readAsDataURL]. *)
Definition submit_entry (uploadedImage : ImageFileWithPreview) : Task :=
  [ setIsLoading true;
    setError None;
    setGeneratedImageUrl None;
    setIntermediatePrompt None;
    setAppState LoadingDescriptivePrompt;
    readAsDataURL_called (file uploadedImage) ].

(** The outer [catch]: the reader threw while the read was being started. *)
Definition outer_catch (err : JsError) : Task :=
  [ console_error (lit "Outer error:") err;
    setError (Some (or_else (message err) (lit "An unexpected error occurred.")));
    setIsLoading false;
    setAppState Error ].

(** [reader.onerror] *)
Definition reader_onerror : Task :=
  [ setError (Some (lit "Failed to read uploaded image."));
    setIsLoading false;
    setAppState Error ].

(** [base64WithPrefix.split(',')[1]] *)
Definition base64Data_of (base64WithPrefix : jsstring) : option jsstring :=
  nth_error (split comma base64WithPrefix) 1.

(** [reader.onloadend], up to the first [await].  After an error event
    [reader.result] is [null] and [split] throws before the inner [try]. *)
Definition reader_onloadend (uploadedImage : ImageFileWithPreview)
    (userPrompt : jsstring) (result : option jsstring) : Task :=
  match result with
  | Some base64WithPrefix =>
      let base64Data := base64Data_of base64WithPrefix in
      let mimeType := type (file uploadedImage) in
      [ generateDescriptivePrompt_called base64Data mimeType userPrompt ]
  | None => [ uncaught_TypeError ]
  end.

(** After the first [await] resolved, up to the second. *)
Definition description_fulfilled (descriptivePrompt : jsstring) : Task :=
  [ setIntermediatePrompt (Some descriptivePrompt);
    setAppState LoadingGeneratedImage;
    generateImageFromPrompt_called descriptivePrompt ].

Definition finally_block : Task := [ setIsLoading false ].

(** After the second [await] resolved. *)
Definition image_fulfilled (imageBytes : jsstring) : Task :=
  let imageUrl := lit "data:image/jpeg;base64," ++ imageBytes in
  [ setGeneratedImageUrl (Some imageUrl);
    setAppState Success ] ++ finally_block.

(** The inner [catch], entered when either [await] rejects. *)
Definition generation_failed (err : JsError) : Task :=
  [ console_error (lit "Error in generation process:") err;
    setError (Some (or_else (message err)
       (lit "Failed to generate image. Please check API key and try again.")));
    setAppState Error ] ++ finally_block.

(** The error kinds of a run. *)
Inductive RunError :=
| ValidationError
| ReadError (thrown : option JsError)
| ServiceError (err : JsError).

(** *** One run, against given collaborators *)

Section Run.

(** [reader.readAsDataURL(file)]: the exception it throws, if any. *)
Variable readAsDataURL : File -> option JsError.
(** [reader.result] when [loadend] fires: the data URL after a load, [null]
    after an error event. *)
Variable reader_result : File -> option jsstring.
(** The two functions of [services/geminiService]. *)
Variable generateDescriptivePrompt :
  option jsstring -> jsstring -> jsstring -> Settled.
Variable generateImageFromPrompt : jsstring -> Settled.

Definition await_image (descriptivePrompt : jsstring) : list Task :=
  match generateImageFromPrompt descriptivePrompt with
  | Fulfilled imageBytes => [ image_fulfilled imageBytes ]
  | Rejected err => [ generation_failed err ]
  end.

Definition await_description (base64Data : option jsstring)
    (mimeType userPrompt : jsstring) : list Task :=
  match generateDescriptivePrompt base64Data mimeType userPrompt with
  | Fulfilled descriptivePrompt =>
      description_fulfilled descriptivePrompt :: await_image descriptivePrompt
  | Rejected err => [ generation_failed err ]
  end.

(** The reader's events: [loadend] alone after a load, [error] and then
    [loadend] after a failure. *)
Definition reader_events (uploadedImage : ImageFileWithPreview)
    (userPrompt : jsstring) : list Task :=
  match reader_result (file uploadedImage) with
  | Some base64WithPrefix =>
      reader_onloadend uploadedImage userPrompt (Some base64WithPrefix)
      :: await_description (base64Data_of base64WithPrefix)
           (type (file uploadedImage)) userPrompt
  | None =>
      [ reader_onerror; reader_onloadend uploadedImage userPrompt None ]
  end.

(** The tasks of one call of [handleSubmit] in state [s], in order. *)
Definition handleSubmit (s : Store) : list Task :=
  match uploadedImage s, truthy (trim (userPrompt s)) with
  | Some img, true =>
      match readAsDataURL (file img) with
      | None => submit_entry img :: reader_events img (userPrompt s)
      | Some err => [ submit_entry img ++ outer_catch err ]
      end
  | _, _ => [ validation_failed ]
  end.

(** The error of a run, in the kinds of the specification: the guard
    rejected the input, the file could not be read (the reader threw, or
    fired its error event), or a service rejected. *)
Definition run_error (s : Store) : option RunError :=
  match uploadedImage s, truthy (trim (userPrompt s)) with
  | Some img, true =>
      match readAsDataURL (file img), reader_result (file img) with
      | Some err, _ => Some (ReadError (Some err))
      | None, None => Some (ReadError None)
      | None, Some base64WithPrefix =>
          match generateDescriptivePrompt (base64Data_of base64WithPrefix)
                  (type (file img)) (userPrompt s) with
          | Rejected err => Some (ServiceError err)
          | Fulfilled descriptivePrompt =>
              match generateImageFromPrompt descriptivePrompt with
              | Rejected err => Some (ServiceError err)
              | Fulfilled _ => None
              end
          end
      end
  | _, _ => Some ValidationError
  end.

End Run.

(** ** The component as a transition system

    Handlers and continuations of several runs may interleave; each step is one
    task.  The handlers are taken to be callable in any state. *)

Inductive Pending :=
| reading (uploadedImage : ImageFileWithPreview) (userPrompt : jsstring)
| awaiting_description
| awaiting_image.

Record System := { store : Store; pending : list Pending }.

Definition start : System := {| store := initial; pending := [] |}.

Inductive step : System -> System -> Prop :=
| step_upload s ps f url :
    step {| store := s; pending := ps |}
         {| store := commit s (handleImageUpload f url); pending := ps |}
| step_type s ps v :
    step {| store := s; pending := ps |}
         {| store := commit s [ setUserPrompt v ]; pending := ps |}
| step_submit_invalid s ps :
    uploadedImage s = None \/ truthy (trim (userPrompt s)) = false ->
    step {| store := s; pending := ps |}
         {| store := commit s validation_failed; pending := ps |}
| step_submit s ps img :
    uploadedImage s = Some img -> truthy (trim (userPrompt s)) = true ->
    step {| store := s; pending := ps |}
         {| store := commit s (submit_entry img);
            pending := reading img (userPrompt s) :: ps |}
| step_submit_throws s ps img err :
    uploadedImage s = Some img -> truthy (trim (userPrompt s)) = true ->
    step {| store := s; pending := ps |}
         {| store := commit s (submit_entry img ++ outer_catch err);
            pending := ps |}
| step_reader_load s ps ps' img u result :
    step {| store := s; pending := ps ++ reading img u :: ps' |}
         {| store := commit s (reader_onloadend img u (Some result));
            pending := ps ++ awaiting_description :: ps' |}
| step_reader_error s ps ps' img u :
    step {| store := s; pending := ps ++ reading img u :: ps' |}
         {| store := commit (commit s reader_onerror)
                       (reader_onloadend img u None);
            pending := ps ++ ps' |}
| step_description_fulfilled s ps ps' descriptivePrompt :
    step {| store := s; pending := ps ++ awaiting_description :: ps' |}
         {| store := commit s (description_fulfilled descriptivePrompt);
            pending := ps ++ awaiting_image :: ps' |}
| step_description_rejected s ps ps' err :
    step {| store := s; pending := ps ++ awaiting_description :: ps' |}
         {| store := commit s (generation_failed err); pending := ps ++ ps' |}
| step_image_fulfilled s ps ps' imageBytes :
    step {| store := s; pending := ps ++ awaiting_image :: ps' |}
         {| store := commit s (image_fulfilled imageBytes);
            pending := ps ++ ps' |}
| step_image_rejected s ps ps' err :
    step {| store := s; pending := ps ++ awaiting_image :: ps' |}
         {| store := commit s (generation_failed err); pending := ps ++ ps' |}.

Inductive reachable : System -> Prop :=
| reachable_start : reachable start
| reachable_step sys sys' : reachable sys -> step sys sys' -> reachable sys'.

(** In state [Success] an image is set. *)
Definition Success_has_image (s : Store) : Prop :=
  appState s = Success -> generatedImageUrl s <> None.

(** ** [getApiKeyStatus] and the rendered view *)

(** The global [process], when there is one, and its [env]. *)
Record ProcessEnv := { API_KEY : option jsstring }.
Record Process := { env : option ProcessEnv }.

Definition status_not_configured : jsstring :=
  lit "API Key not configured. Please set the API_KEY environment variable.".
Definition status_placeholder : jsstring :=
  lit "API Key seems to be a placeholder. Please configure it correctly.".
Definition status_detected : jsstring :=
  lit "API Key detected (validation not performed).".

Definition getApiKeyStatus (process : option Process) : jsstring :=
  match process with
  | Some {| env := Some {| API_KEY := Some key |} |} =>
      if negb (truthy key) then status_not_configured
      else if jsstring_eqb key (lit "YOUR_API_KEY") || Nat.ltb (length key) 10
      then status_placeholder
      else status_detected
  | _ => status_not_configured
  end.

(** The line under the title. *)
Inductive StatusLine :=
| text_red (text : jsstring)
| text_green (text : jsstring).

(** The submit button. *)
Record Button := { disabled : bool; spinner : bool; label : jsstring }.

(** The props handed to [GeneratedImageDisplay]. *)
Record DisplayProps := {
  props_imageUrl : option jsstring;
  props_isLoading : bool;
  props_error : option jsstring;
  props_appState : AppState;
  props_intermediatePrompt : option jsstring
}.

Record View := {
  status_line : StatusLine;
  currentImagePreview : option jsstring;
  submit_button : option Button;
  display : DisplayProps
}.

(** The state-dependent parts of the JSX [App] returns. *)
Definition render (process : option Process) (s : Store) : View :=
  let apiKeyStatus := getApiKeyStatus process in
  {| status_line :=
       if startsWith apiKeyStatus (lit "API Key not")
          || startsWith apiKeyStatus (lit "API Key seems")
       then text_red apiKeyStatus
       else text_green (lit "Gemini API Ready");
     currentImagePreview := option_map previewUrl (uploadedImage s);
     submit_button :=
       match uploadedImage s with
       | Some _ =>
           Some {| disabled :=
                     isLoading s
                     || negb (match uploadedImage s with
                              | Some _ => true | None => false end)
                     || negb (truthy (trim (userPrompt s)));
                   spinner := isLoading s;
                   label :=
                     if isLoading s
                     then match appState s with
                          | LoadingDescriptivePrompt =>
                              lit "Analyzing Image & Prompt..."
                          | _ => lit "Generating Image..."
                          end
                     else lit "Generate Edited Image" |}
       | None => None
       end;
     display :=
       {| props_imageUrl := generatedImageUrl s;
          props_isLoading := isLoading s;
          props_error := error s;
          props_appState := appState s;
          props_intermediatePrompt := intermediatePrompt s |} |}.

(** The key the environment holds, if any. *)
Definition with_key (key : jsstring) : option Process :=
  Some {| env := Some {| API_KEY := Some key |} |}.

(** The value of [process.env.API_KEY], [None] when any link is missing. *)
Definition api_key (process : option Process) : option jsstring :=
  match process with
  | Some {| env := Some {| API_KEY := key |} |} => key
  | _ => None
  end.

(** Runs of the transition system. *)
Inductive steps : System -> System -> Prop :=
| steps_refl sys : steps sys sys
| steps_cons sys sys' sys'' : step sys sys' -> steps sys' sys'' -> steps sys sys''.

(** ** The component as the user drives it

    Through the rendered view, [handleSubmit] runs only on a click of the
    button, which is rendered with an image and takes clicks only when it is
    not disabled; the instruction field is rendered with an image; the uploader
    is always there. *)

(** The first task of [handleSubmit] and the continuation it leaves in flight;
    [thrown] is what [reader.readAsDataURL] throws, if anything. *)
Definition submit_task (thrown : option JsError) (s : Store)
  : Task * list Pending :=
  match uploadedImage s, truthy (trim (userPrompt s)) with
  | Some img, true =>
      match thrown with
      | None => (submit_entry img, [ reading img (userPrompt s) ])
      | Some err => (submit_entry img ++ outer_catch err, [])
      end
  | _, _ => (validation_failed, [])
  end.

(** What a continuation in flight is woken with. *)
Inductive Outcome :=
| reader_done (result : option jsstring)
| promise_settled (r : Settled).

(** The tasks a continuation runs when it is woken, and what it leaves in
    flight. *)
Definition settle (p : Pending) (o : Outcome)
  : option (list Task * list Pending) :=
  match p, o with
  | reading img u, reader_done (Some result) =>
      Some ([ reader_onloadend img u (Some result) ], [ awaiting_description ])
  | reading img u, reader_done None =>
      Some ([ reader_onerror; reader_onloadend img u None ], [])
  | awaiting_description, promise_settled (Fulfilled descriptivePrompt) =>
      Some ([ description_fulfilled descriptivePrompt ], [ awaiting_image ])
  | awaiting_description, promise_settled (Rejected err) =>
      Some ([ generation_failed err ], [])
  | awaiting_image, promise_settled (Fulfilled imageBytes) =>
      Some ([ image_fulfilled imageBytes ], [])
  | awaiting_image, promise_settled (Rejected err) =>
      Some ([ generation_failed err ], [])
  | _, _ => None
  end.

Inductive ui_step : System -> System -> Prop :=
| ui_upload s ps f url :
    ui_step {| store := s; pending := ps |}
            {| store := commit s (handleImageUpload f url); pending := ps |}
| ui_type s ps v :
    uploadedImage s <> None ->
    ui_step {| store := s; pending := ps |}
            {| store := commit s [ setUserPrompt v ]; pending := ps |}
| ui_click process s ps b thrown :
    submit_button (render process s) = Some b -> disabled b = false ->
    ui_step {| store := s; pending := ps |}
            {| store := commit s (fst (submit_task thrown s));
               pending := snd (submit_task thrown s) ++ ps |}
| ui_settle s ps ps' p o ts k :
    settle p o = Some (ts, k) ->
    ui_step {| store := s; pending := ps ++ p :: ps' |}
            {| store := commit_all s ts; pending := ps ++ k ++ ps' |}.

Inductive ui_reachable : System -> Prop :=
| ui_reachable_start : ui_reachable start
| ui_reachable_step sys sys' :
    ui_reachable sys -> ui_step sys sys' -> ui_reachable sys'.

(** ** The transitions of [appState] *)

(** The pairs of consecutive elements. *)
Fixpoint transitions (l : list AppState) : list (AppState * AppState) :=
  match l with
  | a :: (b :: _) as l' => (a, b) :: transitions l'
  | _ => []
  end.

(** The transitions [handleSubmit] is written to make: any state to
    [LoadingDescriptivePrompt], from there to [LoadingGeneratedImage] or
    [Error], and from [LoadingGeneratedImage] to [Success] or [Error]. *)
Definition allowed (t : AppState * AppState) : bool :=
  match t with
  | (_, LoadingDescriptivePrompt) => true
  | (LoadingDescriptivePrompt, LoadingGeneratedImage) => true
  | (LoadingDescriptivePrompt, Error) => true
  | (LoadingGeneratedImage, Success) => true
  | (LoadingGeneratedImage, Error) => true
  | _ => false
  end.

(** All the events of a kind, in order. *)
Definition calls (kind : Event -> bool) (ts : list Task) : list Event :=
  filter kind (concat ts).

Definition is_uncaught (e : Event) : bool :=
  match e with uncaught_TypeError => true | _ => false end.

(** The button while a run is in progress, and at rest. *)
Definition busy_button (label : jsstring) : Button :=
  {| disabled := true; spinner := true; label := label |}.

Definition idle_button : Button :=
  {| disabled := false; spinner := false;
     label := lit "Generate Edited Image" |}.

(** [c] does not occur in [s]. *)
Definition free_of (c : N) (s : jsstring) : bool :=
  forallb (fun x => negb (x =? c)) s.

(** ** Sample data

    The end-to-end scenario of the specification, used to instantiate the
    properties below. *)

Definition jpeg_file : File :=
  {| type := lit "image/jpeg"; bytes := [255; 216; 255; 224; 0; 16] |}.

Definition uploaded : ImageFileWithPreview :=
  {| file := jpeg_file; previewUrl := lit "blob:preview" |}.

(** An image is uploaded and the instruction typed; nothing has run yet. *)
Definition ready : Store :=
  commit (commit initial (handleImageUpload jpeg_file (lit "blob:preview")))
    [ setUserPrompt (lit "make the sky purple") ].

(** The state a failed run left behind, with the prompt it had obtained. *)
Definition failed_before : Store :=
  {| uploadedImage := Some uploaded;
     userPrompt := lit "make the sky purple";
     isLoading := false;
     generatedImageUrl := None;
     error := Some (lit "quota exceeded");
     appState := Error;
     intermediatePrompt := Some (lit "A red bicycle on a beach") |}.

(** A previous run succeeded and its image is on display. *)
Definition succeeded_before : Store :=
  {| uploadedImage := Some uploaded;
     userPrompt := lit "make the sky purple";
     isLoading := false;
     generatedImageUrl := Some (lit "data:image/jpeg;base64,T0xE");
     error := None;
     appState := Success;
     intermediatePrompt := Some (lit "A red bicycle on a beach") |}.

Definition data_url : jsstring := lit "data:image/jpeg;base64,/9j/4AAQ".
Definition described : jsstring :=
  lit "A red bicycle on a beach under a purple sky".
Definition painted : jsstring := lit "bmV3LWpwZWc=".
Definition quota : JsError := {| message := Some (lit "quota exceeded") |}.

Definition starts_reading (_ : File) : option JsError := None.
Definition read_throws (_ : File) : option JsError := Some quota.
Definition loads (_ : File) : option jsstring := Some data_url.
Definition load_fails (_ : File) : option jsstring := None.
Definition describes (_ : option jsstring) (_ _ : jsstring) : Settled :=
  Fulfilled described.
Definition describe_fails (_ : option jsstring) (_ _ : jsstring) : Settled :=
  Rejected quota.
Definition paints (_ : jsstring) : Settled := Fulfilled painted.
Definition paint_fails (_ : jsstring) : Settled := Rejected quota.

(** * Properties *)

(** ** Strings *)

Lemma truthy_true_iff (s : jsstring) : truthy s = true <-> s <> [].
Proof. destruct s; simpl; split; congruence. Qed.

Lemma truthy_false_iff (s : jsstring) : truthy s = false <-> s = [].
Proof. destruct s; simpl; split; congruence. Qed.

Lemma trimStart_nil_iff (s : jsstring) :
  trimStart s = [] <-> forallb isWhiteSpace s = true.
Proof.
  induction s as [|c s IH]; simpl.
  - split; reflexivity.
  - destruct (isWhiteSpace c); simpl.
    + exact IH.
    + split; discriminate.
Qed.

Lemma trimStart_blank (s : jsstring) :
  forallb isWhiteSpace s = true -> trimStart s = [].
Proof. apply trimStart_nil_iff. Qed.

(** What [trimStart] keeps starts with a code unit that is not white space. *)
Lemma trimStart_head (s : jsstring) c r :
  trimStart s = c :: r -> isWhiteSpace c = false.
Proof.
  induction s as [|a s IH]; simpl; [discriminate|].
  destruct (isWhiteSpace a) eqn:Ha; [exact IH|].
  intros H; injection H as <- _; exact Ha.
Qed.

(** [trim] leaves nothing exactly of the strings made of white space. *)
Lemma trim_nil_iff (s : jsstring) :
  trim s = [] <-> forallb isWhiteSpace s = true.
Proof.
  unfold trim, trimEnd; split.
  - intros H. apply trimStart_nil_iff.
    destruct (trimStart s) as [|c r] eqn:E; [reflexivity|].
    apply trimStart_head in E.
    apply (f_equal (@rev N)) in H. rewrite rev_involutive in H. simpl in H.
    apply trimStart_nil_iff in H.
    rewrite forallb_app in H. simpl in H. rewrite E in H.
    rewrite andb_false_r in H. discriminate.
  - intros H. rewrite (trimStart_blank s H). reflexivity.
Qed.

Lemma truthy_trim (s : jsstring) :
  truthy (trim s) = negb (forallb isWhiteSpace s).
Proof.
  destruct (forallb isWhiteSpace s) eqn:E; simpl.
  - apply truthy_false_iff, trim_nil_iff, E.
  - apply truthy_true_iff. intros H. apply trim_nil_iff in H. congruence.
Qed.

Lemma blank_repeat_space (n : nat) : forallb isWhiteSpace (repeat 32 n) = true.
Proof. induction n; simpl; auto. Qed.

Lemma jsstring_eqb_eq (a b : jsstring) : jsstring_eqb a b = true <-> a = b.
Proof.
  revert b; induction a as [|x a IH]; intros [|y b]; simpl;
    try (split; congruence).
  rewrite andb_true_iff, N.eqb_eq, IH. split.
  - intros [-> ->]; reflexivity.
  - intros H; injection H; auto.
Qed.

Example trim_inner_space : trim (lit "  a b 	") = lit "a b".
Proof. reflexivity. Qed.

Example trim_spaces : trim (lit "   ") = [].
Proof. reflexivity. Qed.

Example base64Data_of_data_url : base64Data_of data_url = Some (lit "/9j/4AAQ").
Proof. reflexivity. Qed.

Example base64Data_of_no_comma : base64Data_of (lit "abc") = None.
Proof. reflexivity. Qed.

Lemma or_else_available (m fallback : jsstring) :
  m <> [] -> or_else (Some m) fallback = m.
Proof. destruct m; simpl; congruence. Qed.

Lemma or_else_unavailable (x : option jsstring) (fallback : jsstring) :
  x = None \/ x = Some [] -> or_else x fallback = fallback.
Proof. intros [-> | ->]; reflexivity. Qed.

(** ** The shape of a run *)

Section RunFacts.

Variable readAsDataURL : File -> option JsError.
Variable reader_result : File -> option jsstring.
Variable generateDescriptivePrompt :
  option jsstring -> jsstring -> jsstring -> Settled.
Variable generateImageFromPrompt : jsstring -> Settled.

Local Abbreviation run :=
  (handleSubmit readAsDataURL reader_result generateDescriptivePrompt
     generateImageFromPrompt).
Local Abbreviation failure :=
  (run_error readAsDataURL reader_result generateDescriptivePrompt
     generateImageFromPrompt).

Lemma run_invalid (s : Store) :
  uploadedImage s = None \/ forallb isWhiteSpace (userPrompt s) = true ->
  run s = [ validation_failed ] /\ failure s = Some ValidationError.
Proof.
  intros H. unfold handleSubmit, run_error. rewrite truthy_trim.
  destruct H as [-> | ->]; [split; reflexivity|].
  destruct (uploadedImage s); split; reflexivity.
Qed.

Lemma run_read_throws (s : Store) img err :
  uploadedImage s = Some img -> trim (userPrompt s) <> [] ->
  readAsDataURL (file img) = Some err ->
  run s = [ submit_entry img ++ outer_catch err ]
  /\ failure s = Some (ReadError (Some err)).
Proof.
  intros Hi Hp Ht. apply truthy_true_iff in Hp.
  unfold handleSubmit, run_error. rewrite Hi, Hp, Ht. split; reflexivity.
Qed.

Lemma run_read_fails (s : Store) img :
  uploadedImage s = Some img -> trim (userPrompt s) <> [] ->
  readAsDataURL (file img) = None -> reader_result (file img) = None ->
  run s = [ submit_entry img; reader_onerror;
            reader_onloadend img (userPrompt s) None ]
  /\ failure s = Some (ReadError None).
Proof.
  intros Hi Hp Ht Hr. apply truthy_true_iff in Hp.
  unfold handleSubmit, run_error, reader_events.
  rewrite Hi, Hp, Ht, Hr. split; reflexivity.
Qed.

Lemma run_description_rejected (s : Store) img r err :
  uploadedImage s = Some img -> trim (userPrompt s) <> [] ->
  readAsDataURL (file img) = None -> reader_result (file img) = Some r ->
  generateDescriptivePrompt (base64Data_of r) (type (file img)) (userPrompt s)
    = Rejected err ->
  run s = [ submit_entry img; reader_onloadend img (userPrompt s) (Some r);
            generation_failed err ]
  /\ failure s = Some (ServiceError err).
Proof.
  intros Hi Hp Ht Hr Hd. apply truthy_true_iff in Hp.
  unfold handleSubmit, run_error, reader_events, await_description.
  rewrite Hi, Hp, Ht, Hr, Hd. split; reflexivity.
Qed.

Lemma run_image_rejected (s : Store) img r d err :
  uploadedImage s = Some img -> trim (userPrompt s) <> [] ->
  readAsDataURL (file img) = None -> reader_result (file img) = Some r ->
  generateDescriptivePrompt (base64Data_of r) (type (file img)) (userPrompt s)
    = Fulfilled d ->
  generateImageFromPrompt d = Rejected err ->
  run s = [ submit_entry img; reader_onloadend img (userPrompt s) (Some r);
            description_fulfilled d; generation_failed err ]
  /\ failure s = Some (ServiceError err).
Proof.
  intros Hi Hp Ht Hr Hd Hg. apply truthy_true_iff in Hp.
  unfold handleSubmit, run_error, reader_events, await_description,
    await_image.
  rewrite Hi, Hp, Ht, Hr, Hd, Hg. split; reflexivity.
Qed.

Lemma run_success (s : Store) img r d b :
  uploadedImage s = Some img -> trim (userPrompt s) <> [] ->
  readAsDataURL (file img) = None -> reader_result (file img) = Some r ->
  generateDescriptivePrompt (base64Data_of r) (type (file img)) (userPrompt s)
    = Fulfilled d ->
  generateImageFromPrompt d = Fulfilled b ->
  run s = [ submit_entry img; reader_onloadend img (userPrompt s) (Some r);
            description_fulfilled d; image_fulfilled b ]
  /\ failure s = None.
Proof.
  intros Hi Hp Ht Hr Hd Hg. apply truthy_true_iff in Hp.
  unfold handleSubmit, run_error, reader_events, await_description,
    await_image.
  rewrite Hi, Hp, Ht, Hr, Hd, Hg. split; reflexivity.
Qed.

(** A run is one, two, three or four tasks long: it always ends. *)
Lemma run_length (s : Store) : (1 <= length (run s) <= 4)%nat.
Proof.
  unfold handleSubmit, reader_events, await_description, await_image.
  repeat match goal with
         | |- context [match ?x with _ => _ end] => destruct x
         end; simpl; lia.
Qed.

(** A run without error ends in [Success]. *)
Lemma no_error_success (s : Store) :
  failure s = None -> appState (commit_all s (run s)) = Success.
Proof.
  unfold handleSubmit, run_error, reader_events, await_description,
    await_image.
  repeat match goal with
         | |- context [match ?x with _ => _ end] => destruct x
         end; try discriminate; reflexivity.
Qed.


(** ** The claims about [handleSubmit] *)

(** C1, as the code has it.  On a valid input, when the file is read and both
    services fulfil, the tasks of the run, with no other handler in between,
    make [appState] take, after its value before the run, exactly the values
    [LoadingDescriptivePrompt], [LoadingGeneratedImage], [Success] in this
    order; from [Idle] the sequence is [Idle], [LoadingDescriptivePrompt],
    [LoadingGeneratedImage], [Success].  The display sees these states task
    by task, and [Idle] is never directly followed by [Success] or
    [Error]. *)
Theorem success_path_states (s : Store) img r d b :
  uploadedImage s = Some img -> trim (userPrompt s) <> [] ->
  readAsDataURL (file img) = None -> reader_result (file img) = Some r ->
  generateDescriptivePrompt (base64Data_of r) (type (file img)) (userPrompt s)
    = Fulfilled d ->
  generateImageFromPrompt d = Fulfilled b ->
  appState_trace s (run s)
    = destutter [ appState s; LoadingDescriptivePrompt;
                  LoadingGeneratedImage; Success ]
  /\ (appState s = Idle ->
      appState_trace s (run s)
        = [ Idle; LoadingDescriptivePrompt; LoadingGeneratedImage; Success ])
  /\ map appState (snapshots s (run s))
       = [ LoadingDescriptivePrompt; LoadingDescriptivePrompt;
           LoadingGeneratedImage; Success ]
  /\ follows Idle Success (appState_trace s (run s)) = false
  /\ follows Idle Error (appState_trace s (run s)) = false.
Proof.
  intros Hi Hp Ht Hr Hd Hg.
  destruct (run_success s img r d b Hi Hp Ht Hr Hd Hg) as [-> _].
  unfold appState_trace; cbn -[lit].
  destruct (appState s); repeat apply conj;
    try reflexivity; intros E; discriminate E.
Qed.

(** C2. Without an image, or with an instruction that is empty or made of
    white space only, [handleSubmit] performs a single task that only sets
    the validation message: the reader and the two services are not called,
    [appState] and every other cell keep their values, and the run is the
    one of the same state with the empty instruction. *)
Theorem validation_error (s : Store) :
  uploadedImage s = None \/ forallb isWhiteSpace (userPrompt s) = true ->
  failure s = Some ValidationError
  /\ run s = [ [ setError
         (Some (lit "Please upload an image and provide an editing prompt.")) ] ]
  /\ descriptive_calls (run s) = 0%nat
  /\ image_calls (run s) = 0%nat
  /\ appState_trace s (run s) = [ appState s ]
  /\ commit_all s (run s)
       = write s (setError
           (Some (lit "Please upload an image and provide an editing prompt.")))
  /\ appState (commit_all s (run s)) = appState s
  /\ run s = run (write s (setUserPrompt [])).
Proof.
  intros H. destruct (run_invalid s H) as [E F].
  assert (E0 : run (write s (setUserPrompt [])) = [ validation_failed ]).
  { apply run_invalid. right. reflexivity. }
  rewrite E0, E, F. unfold appState_trace; cbn -[lit].
  repeat apply conj; try reflexivity.
  destruct (appState s); reflexivity.
Qed.

(** C3. When the descriptive-prompt service rejects, the image service is
    not called, the run ends in [Error], and the message shown is the
    rejection's own message when it has a non-empty one and the fixed
    fallback otherwise. *)
Theorem description_failure (s : Store) img r err :
  uploadedImage s = Some img -> trim (userPrompt s) <> [] ->
  readAsDataURL (file img) = None -> reader_result (file img) = Some r ->
  generateDescriptivePrompt (base64Data_of r) (type (file img)) (userPrompt s)
    = Rejected err ->
  image_calls (run s) = 0%nat
  /\ descriptive_calls (run s) = 1%nat
  /\ appState (commit_all s (run s)) = Error
  /\ appState_trace s (run s)
       = destutter [ appState s; LoadingDescriptivePrompt; Error ]
  /\ (forall m, message err = Some m -> m <> [] ->
      error (commit_all s (run s)) = Some m)
  /\ (message err = None \/ message err = Some [] ->
      error (commit_all s (run s))
        = Some (lit "Failed to generate image. Please check API key and try again.")).
Proof.
  intros Hi Hp Ht Hr Hd.
  destruct (run_description_rejected s img r err Hi Hp Ht Hr Hd) as [-> _].
  unfold appState_trace; cbn -[lit or_else].
  repeat apply conj; try reflexivity.
  - destruct (appState s); reflexivity.
  - intros m -> Hm. now rewrite or_else_available.
  - intros H. now rewrite or_else_unavailable.
Qed.

(** C4. When the descriptive-prompt service fulfils and the image service
    then rejects, the run ends in [Error] and no image is set: in every
    state the display observes during the run, and at its end,
    [generatedImageUrl] is [null]. *)
Theorem image_failure (s : Store) img r d err :
  uploadedImage s = Some img -> trim (userPrompt s) <> [] ->
  readAsDataURL (file img) = None -> reader_result (file img) = Some r ->
  generateDescriptivePrompt (base64Data_of r) (type (file img)) (userPrompt s)
    = Fulfilled d ->
  generateImageFromPrompt d = Rejected err ->
  appState (commit_all s (run s)) = Error
  /\ generatedImageUrl (commit_all s (run s)) = None
  /\ Forall (fun st => generatedImageUrl st = None) (snapshots s (run s))
  /\ (forall process,
      props_imageUrl (display (render process (commit_all s (run s)))) = None)
  /\ image_calls (run s) = 1%nat.
Proof.
  intros Hi Hp Ht Hr Hd Hg.
  destruct (run_image_rejected s img r d err Hi Hp Ht Hr Hd Hg) as [-> _].
  cbn -[lit or_else]. repeat apply conj; try reflexivity.
  repeat constructor.
Qed.

(** C5. When both services fulfil and the image service returns [b], the run
    ends in [Success] and the image handed to the display is
    ["data:image/jpeg;base64,"] followed by [b]. *)
Theorem success_data_uri (s : Store) img r d b :
  uploadedImage s = Some img -> trim (userPrompt s) <> [] ->
  readAsDataURL (file img) = None -> reader_result (file img) = Some r ->
  generateDescriptivePrompt (base64Data_of r) (type (file img)) (userPrompt s)
    = Fulfilled d ->
  generateImageFromPrompt d = Fulfilled b ->
  appState (commit_all s (run s)) = Success
  /\ generatedImageUrl (commit_all s (run s))
       = Some (lit "data:image/jpeg;base64," ++ b)
  /\ (forall process,
      props_imageUrl (display (render process (commit_all s (run s))))
        = Some (lit "data:image/jpeg;base64," ++ b)
      /\ props_appState (display (render process (commit_all s (run s))))
        = Success).
Proof.
  intros Hi Hp Ht Hr Hd Hg.
  destruct (run_success s img r d b Hi Hp Ht Hr Hd Hg) as [-> _].
  cbn -[lit]. repeat apply conj; try reflexivity.
  intros _. split; reflexivity.
Qed.

(** C6, as the code has it.  An error of a run always produces a message,
    and every error but the validation error ends the run in [Error]: a
    validation error shows its fixed message and leaves [appState] as it
    was; a reader error event shows a fixed message; an exception of the
    reader or a rejection of a service shows the thrown value's own message
    when it has a non-empty one and the fixed fallback of its [catch]
    otherwise. *)
Theorem error_outcome (s : Store) (e : RunError) :
  failure s = Some e ->
  match e with
  | ValidationError =>
      appState (commit_all s (run s)) = appState s
      /\ error (commit_all s (run s))
         = Some (lit "Please upload an image and provide an editing prompt.")
  | ReadError None =>
      appState (commit_all s (run s)) = Error
      /\ error (commit_all s (run s))
         = Some (lit "Failed to read uploaded image.")
  | ReadError (Some err) =>
      appState (commit_all s (run s)) = Error
      /\ error (commit_all s (run s))
         = Some (or_else (message err) (lit "An unexpected error occurred."))
  | ServiceError err =>
      appState (commit_all s (run s)) = Error
      /\ error (commit_all s (run s))
         = Some (or_else (message err)
             (lit "Failed to generate image. Please check API key and try again."))
  end.
Proof.
  unfold handleSubmit, run_error, reader_events, await_description,
    await_image.
  repeat match goal with
         | |- context [match ?x with _ => _ end] => destruct x
         end;
    intros H; inversion H; subst; split; reflexivity.
Qed.

(** C7. A run started in the state a failed run left, on a valid input and
    with both services fulfilling, ends in [Success] with no error message
    and with the prompt of this run; from its first task on the old message
    is gone and the prompt on display is never the stale one. *)
Theorem rerun_after_failure (s : Store) img r d b :
  appState s = Error ->
  uploadedImage s = Some img -> trim (userPrompt s) <> [] ->
  readAsDataURL (file img) = None -> reader_result (file img) = Some r ->
  generateDescriptivePrompt (base64Data_of r) (type (file img)) (userPrompt s)
    = Fulfilled d ->
  generateImageFromPrompt d = Fulfilled b ->
  appState (commit_all s (run s)) = Success
  /\ error (commit_all s (run s)) = None
  /\ intermediatePrompt (commit_all s (run s)) = Some d
  /\ generatedImageUrl (commit_all s (run s))
       = Some (lit "data:image/jpeg;base64," ++ b)
  /\ isLoading (commit_all s (run s)) = false
  /\ map error (snapshots s (run s)) = [ None; None; None; None ]
  /\ map intermediatePrompt (snapshots s (run s))
       = [ None; None; Some d; Some d ]
  /\ appState_trace s (run s)
       = [ Error; LoadingDescriptivePrompt; LoadingGeneratedImage; Success ].
Proof.
  intros He Hi Hp Ht Hr Hd Hg.
  destruct (run_success s img r d b Hi Hp Ht Hr Hd Hg) as [-> _].
  unfold appState_trace; cbn -[lit]. rewrite He.
  repeat apply conj; reflexivity.
Qed.

End RunFacts.

(** *** The claims at the sample scenario *)

Lemma success_path_states_witness :
  appState_trace ready (handleSubmit starts_reading loads describes paints ready)
  = [ Idle; LoadingDescriptivePrompt; LoadingGeneratedImage; Success ].
Proof.
  assert (valid : trim (userPrompt ready) <> []) by (vm_compute; discriminate).
  exact (proj1 (proj2
    (success_path_states starts_reading loads describes paints ready
       uploaded data_url described painted
       eq_refl valid eq_refl eq_refl eq_refl eq_refl)) eq_refl).
Defined.

(** C1 as stated fails in two ways.  A run started where a failed run ended
    goes from [Error] on and never is in [Idle]; and an upload while the image
    of a run is awaited, which the view allows, sets [Idle], from where the
    run's last task goes directly to [Success]. *)
Lemma rerun_and_upload_leave_sequence :
  let failed :=
    commit_all ready
      (handleSubmit starts_reading loads describes paint_fails ready) in
  (run_error starts_reading loads describes paints failed = None
   /\ appState_trace failed
        (handleSubmit starts_reading loads describes paints failed)
      = [ Error; LoadingDescriptivePrompt; LoadingGeneratedImage; Success ]
   /\ appState_trace failed
        (handleSubmit starts_reading loads describes paints failed)
      <> [ Idle; LoadingDescriptivePrompt; LoadingGeneratedImage; Success ])
  /\ (exists sys sys',
        ui_reachable sys /\ ui_step sys sys'
        /\ pending sys = [ awaiting_image ]
        /\ appState (store sys) = Idle
        /\ appState (store sys') = Success).
Proof.
  intros failed. split.
  - repeat apply conj; [ reflexivity | reflexivity | discriminate ].
  - pose (s1 := commit ready (submit_entry uploaded)).
    pose (s2 := commit s1
                  (reader_onloadend uploaded (userPrompt ready) (Some data_url))).
    pose (s3 := commit s2 (description_fulfilled described)).
    pose (s4 := commit s3 (handleImageUpload jpeg_file (lit "blob:other"))).
    pose (s5 := commit s4 (image_fulfilled painted)).
    assert (R0 : ui_reachable {| store := ready; pending := [] |}).
    { eapply ui_reachable_step;
        [ eapply ui_reachable_step; [ apply ui_reachable_start | ] | ].
      - apply (ui_upload initial [] jpeg_file (lit "blob:preview")).
      - apply (ui_type _ [] (lit "make the sky purple")). discriminate. }
    assert (R1 : ui_reachable
                   {| store := s1;
                      pending := [ reading uploaded (userPrompt ready) ] |}).
    { apply (ui_reachable_step _ _ R0).
      apply (ui_click None ready [] idle_button None); reflexivity. }
    assert (R2 : ui_reachable
                   {| store := s2; pending := [ awaiting_description ] |}).
    { apply (ui_reachable_step _ _ R1).
      exact (ui_settle s1 [] [] (reading uploaded (userPrompt ready))
               (reader_done (Some data_url)) _ _ eq_refl). }
    assert (R3 : ui_reachable {| store := s3; pending := [ awaiting_image ] |}).
    { apply (ui_reachable_step _ _ R2).
      exact (ui_settle s2 [] [] awaiting_description
               (promise_settled (Fulfilled described)) _ _ eq_refl). }
    exists {| store := s4; pending := [ awaiting_image ] |},
           {| store := s5; pending := [] |}.
    repeat apply conj; try reflexivity.
    + apply (ui_reachable_step _ _ R3).
      apply (ui_upload s3 [ awaiting_image ] jpeg_file (lit "blob:other")).
    + exact (ui_settle s4 [] [] awaiting_image
               (promise_settled (Fulfilled painted)) _ _ eq_refl).
Qed.

Lemma validation_error_witness :
  let spaces := write ready (setUserPrompt (lit "   ")) in
  handleSubmit starts_reading loads describes paints spaces
  = handleSubmit starts_reading loads describes paints
      (write spaces (setUserPrompt []))
  /\ appState
       (commit_all spaces
          (handleSubmit starts_reading loads describes paints spaces))
     = Idle.
Proof.
  intros spaces.
  assert (blank : uploadedImage spaces = None
                  \/ forallb isWhiteSpace (userPrompt spaces) = true)
    by (right; reflexivity).
  pose proof (validation_error starts_reading loads describes paints
                spaces blank) as H.
  split; [ apply H | exact (proj1 (proj2 (proj2 (proj2 (proj2 (proj2 (proj2 H))))))) ].
Defined.

Lemma description_failure_witness :
  image_calls (handleSubmit starts_reading loads describe_fails paints ready)
  = 0%nat
  /\ error (commit_all ready
       (handleSubmit starts_reading loads describe_fails paints ready))
     = Some (lit "quota exceeded").
Proof.
  assert (valid : trim (userPrompt ready) <> []) by (vm_compute; discriminate).
  pose proof (description_failure starts_reading loads describe_fails paints
                ready uploaded data_url quota
                eq_refl valid eq_refl eq_refl eq_refl) as H.
  split; [ apply H | ].
  apply (proj1 (proj2 (proj2 (proj2 (proj2 H))))); [ reflexivity | ].
  vm_compute; discriminate.
Defined.

Lemma image_failure_witness :
  appState (commit_all ready
    (handleSubmit starts_reading loads describes paint_fails ready)) = Error
  /\ generatedImageUrl (commit_all ready
       (handleSubmit starts_reading loads describes paint_fails ready)) = None.
Proof.
  assert (valid : trim (userPrompt ready) <> []) by (vm_compute; discriminate).
  pose proof (image_failure starts_reading loads describes paint_fails
                ready uploaded data_url described quota
                eq_refl valid eq_refl eq_refl eq_refl eq_refl) as H.
  split; apply H.
Defined.

Lemma success_data_uri_witness :
  generatedImageUrl (commit_all ready
    (handleSubmit starts_reading loads describes paints ready))
  = Some (lit "data:image/jpeg;base64,bmV3LWpwZWc=").
Proof.
  assert (valid : trim (userPrompt ready) <> []) by (vm_compute; discriminate).
  exact (proj1 (proj2
    (success_data_uri starts_reading loads describes paints ready
       uploaded data_url described painted
       eq_refl valid eq_refl eq_refl eq_refl eq_refl))).
Defined.

Lemma error_outcome_witness :
  appState (commit_all ready
    (handleSubmit starts_reading load_fails describes paints ready)) = Error
  /\ error (commit_all ready
       (handleSubmit starts_reading load_fails describes paints ready))
     = Some (lit "Failed to read uploaded image.").
Proof.
  exact (error_outcome starts_reading load_fails describes paints ready
           (ReadError None) eq_refl).
Defined.

(** C6 as stated fails: submitting before any upload is a validation error,
    which shows its message and leaves the state [Idle], not [Error]. *)
Lemma validation_error_keeps_state :
  run_error starts_reading loads describes paints initial
    = Some ValidationError
  /\ error (commit_all initial
       (handleSubmit starts_reading loads describes paints initial)) <> None
  /\ appState (commit_all initial
       (handleSubmit starts_reading loads describes paints initial)) <> Error.
Proof. repeat apply conj; [ reflexivity | discriminate | discriminate ]. Qed.

Lemma rerun_after_failure_witness :
  let final := commit_all failed_before
    (handleSubmit starts_reading loads describes paints failed_before) in
  appState final = Success /\ error final = None
  /\ intermediatePrompt final = Some described.
Proof.
  assert (valid : trim (userPrompt failed_before) <> [])
    by (vm_compute; discriminate).
  pose proof (rerun_after_failure starts_reading loads describes paints
                failed_before uploaded data_url described painted
                eq_refl eq_refl valid eq_refl eq_refl eq_refl eq_refl) as H.
  repeat apply conj; apply H.
Defined.

(** ** [handleImageUpload] *)

(** C9. An upload replaces the uploaded image, clears the generated image and
    the error message and sets [appState] to [Idle]; the instruction, the
    intermediate prompt of an earlier run and the loading flag keep their
    values. *)
Theorem handleImageUpload_frame (s : Store) (f : File) (url : jsstring) :
  let s' := commit s (handleImageUpload f url) in
  uploadedImage s' = Some {| file := f; previewUrl := url |}
  /\ generatedImageUrl s' = None
  /\ error s' = None
  /\ appState s' = Idle
  /\ userPrompt s' = userPrompt s
  /\ intermediatePrompt s' = intermediatePrompt s
  /\ isLoading s' = isLoading s.
Proof. cbn. repeat apply conj; reflexivity. Qed.

(** The prompt of a failed run is still there after a new upload. *)
Example stale_prompt_survives_upload :
  intermediatePrompt
    (commit failed_before (handleImageUpload jpeg_file (lit "blob:other")))
  = Some (lit "A red bicycle on a beach").
Proof. reflexivity. Qed.

(** ** The invariant of [Success] *)

(** In the task that ends a run with success the image is written before the
    state: the invariant holds after each of its events. *)
Lemma image_fulfilled_in_order (s : Store) (imageBytes : jsstring) :
  Success_has_image s ->
  Forall Success_has_image (history s (image_fulfilled imageBytes)).
Proof.
  intros H. unfold Success_has_image in *. cbn -[lit].
  repeat constructor; cbn -[lit]; intros; discriminate.
Qed.

(** Within [handleImageUpload] the image is cleared two writes before the
    state is reset: the invariant is one of committed states, not of the
    single writes. *)
Example upload_clears_image_first :
  map (fun st => (appState st, generatedImageUrl st))
    (history succeeded_before (handleImageUpload jpeg_file (lit "blob:other")))
  = [ (Success, Some (lit "data:image/jpeg;base64,T0xE"));
      (Success, None); (Success, None); (Idle, None) ].
Proof. reflexivity. Qed.

(** A task that clears the image also leaves [Success]. *)
Lemma clearing_leaves_Success (s : Store) :
  (forall f url, appState (commit s (handleImageUpload f url)) = Idle)
  /\ (forall img, appState (commit s (submit_entry img))
                  = LoadingDescriptivePrompt).
Proof. split; reflexivity. Qed.

(** States reached by a run of the transition system are reachable. *)
Lemma reachable_steps (sys sys' : System) :
  reachable sys -> steps sys sys' -> reachable sys'.
Proof.
  intros Hr Hs. induction Hs as [|sys sys' sys'' H1 _ IH]; [exact Hr|].
  apply IH. exact (reachable_step sys sys' Hr H1).
Qed.

(** One call of [handleSubmit], left alone, is a run of the transition system:
    its tasks are steps, and nothing of it stays in flight. *)
Lemma handleSubmit_steps readAsDataURL reader_result generateDescriptivePrompt
    generateImageFromPrompt (s : Store) (ps : list Pending) :
  steps {| store := s; pending := ps |}
        {| store := commit_all s
                      (handleSubmit readAsDataURL reader_result
                         generateDescriptivePrompt generateImageFromPrompt s);
           pending := ps |}.
Proof.
  unfold handleSubmit, reader_events, await_description, await_image.
  destruct (uploadedImage s) as [img|] eqn:Hi.
  2:{ eapply steps_cons; [ apply step_submit_invalid; left; exact Hi | ].
      apply steps_refl. }
  destruct (truthy (trim (userPrompt s))) eqn:Hp.
  2:{ eapply steps_cons; [ apply step_submit_invalid; right; exact Hp | ].
      apply steps_refl. }
  destruct (readAsDataURL (file img)) as [err|].
  { eapply steps_cons; [ exact (step_submit_throws s ps img err Hi Hp) | ].
    apply steps_refl. }
  eapply steps_cons; [ exact (step_submit s ps img Hi Hp) | ].
  destruct (reader_result (file img)) as [r|].
  2:{ eapply steps_cons; [ apply (step_reader_error _ [] ps) | ].
      apply steps_refl. }
  eapply steps_cons; [ apply (step_reader_load _ [] ps _ _ r) | ].
  destruct (generateDescriptivePrompt _ _ _) as [d|err].
  2:{ eapply steps_cons; [ apply (step_description_rejected _ [] ps err) | ].
      apply steps_refl. }
  eapply steps_cons; [ apply (step_description_fulfilled _ [] ps d) | ].
  destruct (generateImageFromPrompt d) as [b|err].
  - eapply steps_cons; [ apply (step_image_fulfilled _ [] ps b) | ].
    apply steps_refl.
  - eapply steps_cons; [ apply (step_image_rejected _ [] ps err) | ].
    apply steps_refl.
Qed.

(** The sample state [ready] is reached by an upload and typing. *)
Lemma reachable_ready : reachable {| store := ready; pending := [] |}.
Proof.
  eapply reachable_step; [ eapply reachable_step; [ apply reachable_start | ] | ].
  - apply (step_upload initial [] jpeg_file (lit "blob:preview")).
  - apply (step_type _ [] (lit "make the sky purple")).
Qed.

(** C10. Every step of the component, whether a handler or the continuation
    of a run, and whatever else is in flight, preserves the invariant that in
    state [Success] the generated image is not [null]; the invariant holds
    initially, hence in every state the component reaches. *)
Theorem Success_has_image_invariant :
  (forall sys sys', step sys sys' ->
     Success_has_image (store sys) -> Success_has_image (store sys'))
  /\ (forall sys, reachable sys -> Success_has_image (store sys)).
Proof.
  assert (preserved : forall sys sys', step sys sys' ->
            Success_has_image (store sys) -> Success_has_image (store sys')).
  { intros sys sys' Hstep. unfold Success_has_image.
    destruct Hstep; cbn -[lit or_else]; intros Hinv;
      try exact Hinv; intros E; try discriminate E; discriminate. }
  split; [ exact preserved | ].
  induction 1 as [|sys sys' _ IH Hstep].
  - unfold Success_has_image; cbn. discriminate.
  - exact (preserved sys sys' Hstep IH).
Qed.

Lemma Success_has_image_invariant_witness :
  let final := commit_all ready
    (handleSubmit starts_reading loads describes paints ready) in
  appState final = Success /\ generatedImageUrl final <> None.
Proof.
  intros final.
  assert (R : reachable {| store := final; pending := [] |}).
  { apply (reachable_steps _ _ reachable_ready). apply handleSubmit_steps. }
  split; [ reflexivity | ].
  exact (proj2 Success_has_image_invariant _ R eq_refl).
Defined.

(** ** The API key *)

Lemma getApiKeyStatus_api_key (process : option Process) :
  getApiKeyStatus process
  = match api_key process with
    | Some key =>
        if negb (truthy key) then status_not_configured
        else if jsstring_eqb key (lit "YOUR_API_KEY") || Nat.ltb (length key) 10
        then status_placeholder
        else status_detected
    | None => status_not_configured
    end.
Proof.
  destruct process as [[[[[key|]]|]]|]; reflexivity.
Qed.

(** The button of the view does not depend on the key. *)
Lemma submit_button_any_key (process process' : option Process) (s : Store) :
  submit_button (render process s) = submit_button (render process' s).
Proof. reflexivity. Qed.

(** C8 as stated fails: the literal placeholder is twelve code units long and
    is reported as a placeholder. *)
Lemma long_placeholder_not_detected :
  ~ (forall key, (10 <= length key)%nat ->
       getApiKeyStatus (with_key key) = status_detected).
Proof.
  intros H. specialize (H (lit "YOUR_API_KEY")).
  assert (L : (10 <= length (lit "YOUR_API_KEY"))%nat) by (simpl; lia).
  specialize (H L). vm_compute in H. discriminate H.
Qed.

(** C8, as the code has it.  A key of at least ten code units other than the
    literal ["YOUR_API_KEY"] is reported as detected and the view shows the
    ready line.  When the key is missing, or is that literal, or is shorter
    than ten code units, the view shows the status as a warning; the submit
    button is the one of any other key, and it is enabled as soon as an image
    and a non-blank instruction are there and nothing is loading. *)
Theorem api_key_status (process : option Process) (s : Store) :
  (forall key, api_key process = Some key ->
     (10 <= length key)%nat -> key <> lit "YOUR_API_KEY" ->
     getApiKeyStatus process = status_detected
     /\ status_line (render process s) = text_green (lit "Gemini API Ready"))
  /\ (api_key process = None
      \/ (exists key, api_key process = Some key
            /\ (key = lit "YOUR_API_KEY" \/ (length key < 10)%nat)) ->
      (getApiKeyStatus process = status_not_configured
       \/ getApiKeyStatus process = status_placeholder)
      /\ status_line (render process s) = text_red (getApiKeyStatus process)
      /\ (forall process',
            submit_button (render process s) = submit_button (render process' s))
      /\ (forall img, uploadedImage s = Some img -> isLoading s = false ->
            trim (userPrompt s) <> [] ->
            exists b, submit_button (render process s) = Some b
                      /\ disabled b = false)).
Proof.
  split.
  - intros key Hk Hlen Hne.
    assert (E : getApiKeyStatus process = status_detected).
    { rewrite getApiKeyStatus_api_key, Hk.
      destruct key as [|c key]; [ simpl in Hlen; lia | ].
      cbn [truthy negb].
      destruct (jsstring_eqb (c :: key) (lit "YOUR_API_KEY")) eqn:Eq.
      - apply jsstring_eqb_eq in Eq. contradiction.
      - apply Nat.ltb_ge in Hlen. rewrite Hlen. reflexivity. }
    split; [ exact E | ].
    unfold render; cbn [status_line]. rewrite E. reflexivity.
  - intros Hwarn.
    assert (E : getApiKeyStatus process = status_not_configured
                \/ getApiKeyStatus process = status_placeholder).
    { rewrite getApiKeyStatus_api_key.
      destruct Hwarn as [-> | (key & -> & Hkey)]; [ left; reflexivity | ].
      destruct (truthy key); cbn [negb]; [ right | left; reflexivity ].
      destruct Hkey as [-> | Hlt]; [ reflexivity | ].
      apply Nat.ltb_lt in Hlt. rewrite Hlt, orb_true_r. reflexivity. }
    repeat apply conj.
    + exact E.
    + unfold render; cbn [status_line].
      destruct E as [-> | ->]; reflexivity.
    + intros process'. reflexivity.
    + intros img Hi Hl Hp. apply truthy_true_iff in Hp.
      unfold render; cbn [submit_button]. rewrite Hi, Hl, Hp.
      eexists; split; reflexivity.
Qed.

Lemma api_key_status_witness :
  status_line (render (with_key (lit "YOUR_API_KEY")) ready)
  = text_red status_placeholder
  /\ (exists b, submit_button (render (with_key (lit "YOUR_API_KEY")) ready)
                = Some b /\ disabled b = false)
  /\ getApiKeyStatus (with_key (lit "AIzaSy-0123456789")) = status_detected.
Proof.
  assert (valid : trim (userPrompt ready) <> []) by (vm_compute; discriminate).
  assert (warn : api_key (with_key (lit "YOUR_API_KEY")) = None
                 \/ (exists key, api_key (with_key (lit "YOUR_API_KEY")) = Some key
                       /\ (key = lit "YOUR_API_KEY" \/ (length key < 10)%nat)))
    by (right; eexists; split; [ reflexivity | left; reflexivity ]).
  assert (long : (10 <= length (lit "AIzaSy-0123456789"))%nat) by (simpl; lia).
  assert (other : lit "AIzaSy-0123456789" <> lit "YOUR_API_KEY")
    by (vm_compute; discriminate).
  pose proof (proj2 (api_key_status (with_key (lit "YOUR_API_KEY")) ready) warn)
    as (_ & Hline & _ & Hbutton).
  repeat apply conj.
  - exact Hline.
  - exact (Hbutton uploaded eq_refl eq_refl valid).
  - exact (proj1 (proj1 (api_key_status (with_key (lit "AIzaSy-0123456789")) ready)
                   _ eq_refl long other)).
Defined.

(** * Further properties of the handlers *)

(** ** [split] and the payload of a data URL *)

Lemma split_aux_free (sep : N) (a acc : jsstring) :
  free_of sep a = true -> split_aux sep a acc = [ rev acc ++ a ].
Proof.
  revert acc; induction a as [|c a IH]; intros acc H; simpl in *.
  - now rewrite app_nil_r.
  - apply andb_true_iff in H as [Hc Ha].
    apply negb_true_iff in Hc. rewrite Hc, (IH _ Ha). simpl.
    now rewrite <- app_assoc.
Qed.

Lemma split_aux_at_sep (sep : N) (a b acc : jsstring) :
  free_of sep a = true ->
  split_aux sep (a ++ sep :: b) acc = (rev acc ++ a) :: split_aux sep b [].
Proof.
  revert acc; induction a as [|c a IH]; intros acc H; simpl in *.
  - now rewrite N.eqb_refl, app_nil_r.
  - apply andb_true_iff in H as [Hc Ha].
    apply negb_true_iff in Hc. rewrite Hc, (IH _ Ha). simpl.
    now rewrite <- app_assoc.
Qed.

(** X8. The data passed on is what stands between the first comma of the
    reader's result and the next one, or the end. *)
Theorem base64Data_of_payload (prefix payload : jsstring) :
  free_of comma prefix = true -> free_of comma payload = true ->
  base64Data_of (prefix ++ comma :: payload) = Some payload
  /\ (forall rest,
      base64Data_of (prefix ++ comma :: payload ++ comma :: rest)
        = Some payload).
Proof.
  intros Hp Hd. unfold base64Data_of, split. split; [ | intros rest ].
  - rewrite (split_aux_at_sep _ _ _ _ Hp), (split_aux_free _ _ _ Hd).
    reflexivity.
  - rewrite (split_aux_at_sep _ _ _ _ Hp), (split_aux_at_sep _ _ _ _ Hd).
    reflexivity.
Qed.

Lemma base64Data_of_payload_witness :
  base64Data_of (lit "data:image/png;base64" ++ comma :: lit "iVBORw0KGgo=")
  = Some (lit "iVBORw0KGgo=").
Proof.
  exact (proj1 (base64Data_of_payload (lit "data:image/png;base64")
                  (lit "iVBORw0KGgo=") eq_refl eq_refl)).
Defined.

(** X9. A result without a comma gives [undefined]. *)
Theorem base64Data_of_without_comma (result : jsstring) :
  free_of comma result = true -> base64Data_of result = None.
Proof.
  intros H. unfold base64Data_of, split.
  rewrite (split_aux_free _ _ _ H). reflexivity.
Qed.

Lemma base64Data_of_without_comma_witness : base64Data_of (lit "data:") = None.
Proof. exact (base64Data_of_without_comma (lit "data:") eq_refl). Defined.

(** ** Every outcome of a run *)

Section RunOutcomes.

Variable readAsDataURL : File -> option JsError.
Variable reader_result : File -> option jsstring.
Variable generateDescriptivePrompt :
  option jsstring -> jsstring -> jsstring -> Settled.
Variable generateImageFromPrompt : jsstring -> Settled.

Local Abbreviation run :=
  (handleSubmit readAsDataURL reader_result generateDescriptivePrompt
     generateImageFromPrompt).
Local Abbreviation failure :=
  (run_error readAsDataURL reader_result generateDescriptivePrompt
     generateImageFromPrompt).

(** X1. The guard rejects exactly the states without an image or with an
    instruction of white space only; whatever the collaborators would do. *)
Theorem validation_error_iff (s : Store) :
  (failure s = Some ValidationError
   <-> uploadedImage s = None \/ forallb isWhiteSpace (userPrompt s) = true)
  /\ (run s = [ validation_failed ]
      <-> uploadedImage s = None \/ forallb isWhiteSpace (userPrompt s) = true).
Proof.
  split; (split; [ | apply run_invalid ]).
  - unfold run_error. rewrite truthy_trim.
    destruct (uploadedImage s); [ | now left ].
    destruct (forallb isWhiteSpace (userPrompt s)); [ now right | ].
    cbn. repeat match goal with
           | |- context [match ?x with _ => _ end] => destruct x
           end; discriminate.
  - unfold handleSubmit, reader_events. rewrite truthy_trim.
    destruct (uploadedImage s); [ | now left ].
    destruct (forallb isWhiteSpace (userPrompt s)); [ now right | ].
    cbn. repeat match goal with
           | |- context [match ?x with _ => _ end] => destruct x
           end; discriminate.
Qed.

(** X2. A run that passes the guard ends with the loading flag off, and either
    in [Success] with an image and no message, or in [Error] with a message
    and no image. *)
Theorem run_outcome_dichotomy (s : Store) img :
  uploadedImage s = Some img -> trim (userPrompt s) <> [] ->
  isLoading (commit_all s (run s)) = false
  /\ ((failure s = None
       /\ appState (commit_all s (run s)) = Success
       /\ generatedImageUrl (commit_all s (run s)) <> None
       /\ error (commit_all s (run s)) = None)
      \/ (failure s <> None
          /\ appState (commit_all s (run s)) = Error
          /\ generatedImageUrl (commit_all s (run s)) = None
          /\ error (commit_all s (run s)) <> None)).
Proof.
  intros Hi Hp. apply truthy_true_iff in Hp.
  unfold handleSubmit, run_error, reader_events, await_description,
    await_image.
  rewrite Hi, Hp.
  repeat match goal with
         | |- context [match ?x with _ => _ end] => destruct x
         end; cbn -[lit or_else];
    (split; [ reflexivity | ]);
    first [ left; repeat apply conj; (reflexivity || discriminate)
          | right; repeat apply conj; (reflexivity || discriminate) ].
Qed.

(** X3. No task of [handleSubmit] writes the uploaded image or the
    instruction. *)
Theorem run_keeps_inputs (s : Store) :
  Forall (fun st => uploadedImage st = uploadedImage s
                    /\ userPrompt st = userPrompt s)
    (snapshots s (run s)).
Proof.
  unfold handleSubmit, reader_events, await_description, await_image.
  repeat match goal with
         | |- context [match ?x with _ => _ end] => destruct x eqn:?
         end; cbn -[lit or_else]; repeat constructor; assumption.
Qed.

(** X4. When the reader fires its error event, neither service is called; the
    run ends in [Error] with the reader message and the loading flag off; the
    [loadend] handler that follows throws on the [null] result and writes
    nothing. *)
Theorem read_failure (s : Store) img :
  uploadedImage s = Some img -> trim (userPrompt s) <> [] ->
  readAsDataURL (file img) = None -> reader_result (file img) = None ->
  descriptive_calls (run s) = 0%nat
  /\ image_calls (run s) = 0%nat
  /\ calls is_uncaught (run s) = [ uncaught_TypeError ]
  /\ map appState (snapshots s (run s))
       = [ LoadingDescriptivePrompt; Error; Error ]
  /\ error (commit_all s (run s)) = Some (lit "Failed to read uploaded image.")
  /\ isLoading (commit_all s (run s)) = false
  /\ generatedImageUrl (commit_all s (run s)) = None
  /\ intermediatePrompt (commit_all s (run s)) = None.
Proof.
  intros Hi Hp Ht Hr.
  destruct (run_read_fails readAsDataURL reader_result
              generateDescriptivePrompt generateImageFromPrompt
              s img Hi Hp Ht Hr) as [-> _].
  cbn -[lit]. repeat apply conj; reflexivity.
Qed.

(** X5. When [readAsDataURL] throws, the run is over within the submitting
    task: the only state committed is [Error] with the loading flag off, so
    the display never shows [LoadingDescriptivePrompt], and nothing is
    called. *)
Theorem reader_exception (s : Store) img err :
  uploadedImage s = Some img -> trim (userPrompt s) <> [] ->
  readAsDataURL (file img) = Some err ->
  map appState (snapshots s (run s)) = [ Error ]
  /\ map isLoading (snapshots s (run s)) = [ false ]
  /\ descriptive_calls (run s) = 0%nat
  /\ image_calls (run s) = 0%nat
  /\ error (commit_all s (run s))
       = Some (or_else (message err) (lit "An unexpected error occurred."))
  /\ generatedImageUrl (commit_all s (run s)) = None.
Proof.
  intros Hi Hp Ht.
  destruct (run_read_throws readAsDataURL reader_result
              generateDescriptivePrompt generateImageFromPrompt
              s img err Hi Hp Ht) as [-> _].
  cbn -[lit or_else]. repeat apply conj; reflexivity.
Qed.

(** X6. Once the file is read, the descriptive-prompt service is called exactly
    once, with the payload of the data URL, the type of the file and the
    instruction as typed, not trimmed.  If it fulfils, the image service is
    called exactly once, with the very prompt returned, and that prompt stays
    on display whatever the image service does; if it rejects, the image
    service is not called and no prompt is shown. *)
Theorem service_arguments (s : Store) img r :
  uploadedImage s = Some img -> trim (userPrompt s) <> [] ->
  readAsDataURL (file img) = None -> reader_result (file img) = Some r ->
  calls is_descriptive_call (run s)
    = [ generateDescriptivePrompt_called (base64Data_of r) (type (file img))
          (userPrompt s) ]
  /\ (forall d,
      generateDescriptivePrompt (base64Data_of r) (type (file img))
        (userPrompt s) = Fulfilled d ->
      calls is_image_call (run s) = [ generateImageFromPrompt_called d ]
      /\ intermediatePrompt (commit_all s (run s)) = Some d)
  /\ (forall err,
      generateDescriptivePrompt (base64Data_of r) (type (file img))
        (userPrompt s) = Rejected err ->
      calls is_image_call (run s) = []
      /\ intermediatePrompt (commit_all s (run s)) = None).
Proof.
  intros Hi Hp Ht Hr. apply truthy_true_iff in Hp.
  unfold handleSubmit, reader_events, await_description, await_image.
  rewrite Hi, Hp, Ht, Hr.
  destruct (generateDescriptivePrompt _ _ _) as [d|err].
  - destruct (generateImageFromPrompt d); cbn -[lit or_else];
      repeat apply conj; try reflexivity;
      intros ? E; inversion E; subst; split; reflexivity.
  - cbn -[lit or_else]. repeat apply conj; try reflexivity;
      intros ? E; inversion E; subst; split; reflexivity.
Qed.

(** X7. Whatever the collaborators do and whatever the state before, the
    writes of a run move [appState] only along the transitions
    [* -> LoadingDescriptivePrompt -> (LoadingGeneratedImage | Error)] and
    [LoadingGeneratedImage -> (Success | Error)]: in particular never from
    [Idle] to [Success] or [Error], and to [Success] only from
    [LoadingGeneratedImage]. *)
Theorem run_transitions_allowed (s : Store) :
  forallb allowed (transitions (appState_trace s (run s))) = true.
Proof.
  unfold handleSubmit, reader_events, await_description, await_image,
    appState_trace.
  repeat match goal with
         | |- context [match ?x with _ => _ end] => destruct x
         end; cbn -[lit or_else]; destruct (appState s); reflexivity.
Qed.

(** ** The submit button and the guard *)

(** X10. While nothing is loading, the button is rendered and takes clicks
    exactly in the states in which [handleSubmit] passes its guard: through
    the view the guard never fires. *)
Theorem button_enabled_iff_guard (process : option Process) (s : Store) :
  isLoading s = false ->
  ((exists b, submit_button (render process s) = Some b /\ disabled b = false)
   <-> failure s <> Some ValidationError).
Proof.
  intros Hl. unfold render, run_error; cbn [submit_button].
  destruct (uploadedImage s) as [img|].
  2:{ split; [ intros (b & E & _); discriminate E | intros H; now elim H ]. }
  rewrite Hl. destruct (truthy (trim (userPrompt s))); cbn.
  - split; [ intros _ | intros _; eexists; split; reflexivity ].
    repeat match goal with
           | |- context [match ?x with _ => _ end] => destruct x
           end; discriminate.
  - split; [ intros (b & E & D) | intros H; now elim H ].
    injection E as <-. discriminate D.
Qed.

End RunOutcomes.

(** *** The outcomes at the sample scenario *)

Lemma run_outcome_dichotomy_witness :
  appState (commit_all ready
    (handleSubmit starts_reading loads describes paint_fails ready)) = Error
  /\ isLoading (commit_all ready
       (handleSubmit starts_reading loads describes paint_fails ready)) = false.
Proof.
  assert (valid : trim (userPrompt ready) <> []) by (vm_compute; discriminate).
  pose proof (run_outcome_dichotomy starts_reading loads describes paint_fails
                ready uploaded eq_refl valid) as [L _].
  split; [ reflexivity | exact L ].
Defined.

Lemma read_failure_witness :
  descriptive_calls
    (handleSubmit starts_reading load_fails describes paints ready) = 0%nat
  /\ image_calls
       (handleSubmit starts_reading load_fails describes paints ready) = 0%nat.
Proof.
  assert (valid : trim (userPrompt ready) <> []) by (vm_compute; discriminate).
  pose proof (read_failure starts_reading load_fails describes paints
                ready uploaded eq_refl valid eq_refl eq_refl) as H.
  split; apply H.
Defined.

Lemma reader_exception_witness :
  map appState
    (snapshots ready (handleSubmit read_throws loads describes paints ready))
  = [ Error ].
Proof.
  assert (valid : trim (userPrompt ready) <> []) by (vm_compute; discriminate).
  exact (proj1 (reader_exception read_throws loads describes paints
                  ready uploaded quota eq_refl valid eq_refl)).
Defined.

Lemma service_arguments_witness :
  calls is_descriptive_call
    (handleSubmit starts_reading loads describes paints ready)
  = [ generateDescriptivePrompt_called (Some (lit "/9j/4AAQ"))
        (lit "image/jpeg") (lit "make the sky purple") ].
Proof.
  assert (valid : trim (userPrompt ready) <> []) by (vm_compute; discriminate).
  exact (proj1 (service_arguments starts_reading loads describes paints
                  ready uploaded data_url eq_refl valid eq_refl eq_refl)).
Defined.

Lemma button_enabled_iff_guard_witness :
  exists b, submit_button (render None ready) = Some b /\ disabled b = false.
Proof.
  apply (proj2 (button_enabled_iff_guard starts_reading loads describes paints
                  None ready eq_refl)).
  vm_compute; discriminate.
Defined.

(** ** The component as the user drives it *)

Lemma enabled_button (process : option Process) (s : Store) b :
  submit_button (render process s) = Some b -> disabled b = false ->
  isLoading s = false
  /\ truthy (trim (userPrompt s)) = true
  /\ exists img, uploadedImage s = Some img.
Proof.
  unfold render; cbn [submit_button]. intros E D.
  destruct (uploadedImage s) as [img|]; [ | discriminate E ].
  injection E as <-. cbn in D.
  apply orb_false_iff in D as [D Hp]. apply orb_false_iff in D as [Hl _].
  apply negb_false_iff in Hp. repeat split; eauto.
Qed.

(** What the user can make happen is among the steps of the component. *)
Lemma ui_step_is_step (sys sys' : System) : ui_step sys sys' -> step sys sys'.
Proof.
  destruct 1 as [s ps f url | s ps v _ | process s ps b thrown E D
                | s ps ps' p o ts k E].
  - apply step_upload.
  - apply step_type.
  - destruct (enabled_button process s b E D) as (_ & Hp & img & Hi).
    unfold submit_task. rewrite Hi, Hp.
    destruct thrown as [err|].
    + exact (step_submit_throws s ps img err Hi Hp).
    + exact (step_submit s ps img Hi Hp).
  - destruct p as [img u| |], o as [[r|]|[v|err]]; cbn in E;
      inversion E; subst.
    + exact (step_reader_load s ps ps' img u r).
    + exact (step_reader_error s ps ps' img u).
    + exact (step_description_fulfilled s ps ps' v).
    + exact (step_description_rejected s ps ps' err).
    + exact (step_image_fulfilled s ps ps' v).
    + exact (step_image_rejected s ps ps' err).
Qed.

Lemma ui_reachable_is_reachable (sys : System) :
  ui_reachable sys -> reachable sys.
Proof.
  induction 1 as [|sys sys' _ IH Hstep]; [ apply reachable_start | ].
  exact (reachable_step sys sys' IH (ui_step_is_step sys sys' Hstep)).
Qed.

Lemma at_most_one (A : Type) (ps ps' : list A) (p : A) :
  (length (ps ++ p :: ps') <= 1)%nat -> ps = [] /\ ps' = [].
Proof.
  destruct ps as [|a ps]; cbn.
  - destruct ps'; cbn; [ auto | lia ].
  - rewrite length_app; cbn. lia.
Qed.

(** X13. Driven through the view, the component has at most one run in flight,
    and the loading flag is on exactly while one is: the disabled button is
    what keeps runs from overlapping. *)
Theorem single_run_in_flight (sys : System) :
  ui_reachable sys ->
  (length (pending sys) <= 1)%nat
  /\ (isLoading (store sys) = true <-> pending sys <> []).
Proof.
  induction 1 as [|sys sys' _ [IHn IHl] Hstep].
  - cbn. split; [ lia | split; [ discriminate | intros H; now elim H ] ].
  - destruct Hstep as [s ps f url | s ps v _ | process s ps b thrown E D
                      | s ps ps' p o ts k E]; cbn in *.
    + split; assumption.
    + split; assumption.
    + destruct (enabled_button process s b E D) as (Hl & Hp & img & Hi).
      assert (ps = []) as ->.
      { destruct ps; [ reflexivity | ].
        destruct IHl as [_ IHl]. rewrite IHl in Hl; discriminate. }
      unfold submit_task. rewrite Hi, Hp.
      destruct thrown as [err|]; cbn.
      * split; [ lia | split; [ discriminate | intros H; now elim H ] ].
      * split; [ lia | split; [ discriminate | reflexivity ] ].
    + destruct (at_most_one _ ps ps' p IHn) as [-> ->]. cbn in *.
      assert (Hl : isLoading s = true) by (apply IHl; discriminate).
      destruct p as [img u| |], o as [[r|]|[v|err]]; cbn in E;
        inversion E; subst; cbn;
        (split; [ lia | ]);
        first [ split; [ discriminate | intros H; now elim H ]
              | split; [ discriminate | intros _; exact Hl ] ].
Qed.

Lemma single_run_in_flight_witness :
  isLoading (commit ready (submit_entry uploaded)) = true
  <-> [ reading uploaded (userPrompt ready) ] <> [].
Proof.
  assert (R : ui_reachable
                {| store := commit ready (submit_entry uploaded);
                   pending := [ reading uploaded (userPrompt ready) ] |}).
  { eapply ui_reachable_step;
      [ eapply ui_reachable_step;
        [ eapply ui_reachable_step; [ apply ui_reachable_start | ] | ] | ].
    - apply (ui_upload initial [] jpeg_file (lit "blob:preview")).
    - apply (ui_type _ [] (lit "make the sky purple")). discriminate.
    - apply (ui_click None ready [] idle_button None); reflexivity. }
  exact (proj2 (single_run_in_flight _ R)).
Defined.

(** What holds of every state the user can reach: at most one run in flight,
    the loading flag on exactly then, and an image uploaded whenever a run is
    in flight. *)
Lemma ui_invariant (sys : System) :
  ui_reachable sys ->
  (length (pending sys) <= 1)%nat
  /\ (isLoading (store sys) = true <-> pending sys <> [])
  /\ (pending sys <> [] -> uploadedImage (store sys) <> None).
Proof.
  induction 1 as [|sys sys' _ (IHn & IHl & IHi) Hstep].
  - cbn. refine (conj _ (conj (conj _ _) _));
      [ lia | discriminate | intros H; now elim H | intros H; now elim H ].
  - destruct Hstep as [s ps f url | s ps v _ | process s ps b thrown E D
                      | s ps ps' p o ts k E]; cbn in *.
    + refine (conj IHn (conj IHl _)). intros _; discriminate.
    + exact (conj IHn (conj IHl IHi)).
    + destruct (enabled_button process s b E D) as (Hl & Hp & img & Hi).
      assert (ps = []) as ->.
      { destruct ps; [ reflexivity | ].
        destruct IHl as [_ IHl]. rewrite IHl in Hl; discriminate. }
      unfold submit_task. rewrite Hi, Hp.
      destruct thrown as [err|]; cbn; rewrite Hi;
        refine (conj _ (conj (conj _ _) _));
        try lia; try discriminate; try reflexivity; intros H; now elim H.
    + destruct (at_most_one _ ps ps' p IHn) as [-> ->]. cbn in *.
      assert (Hl : isLoading s = true) by (apply IHl; discriminate).
      assert (Hi : uploadedImage s <> None) by (apply IHi; discriminate).
      destruct p as [img u| |], o as [[r|]|[v|err]]; cbn in E;
        inversion E; subst; cbn;
        refine (conj _ (conj (conj _ _) _));
        try lia; try discriminate; try (intros _; assumption);
        intros H; now elim H.
Qed.

(** X11. Whenever no run is in flight, whatever happened before and during
    the runs that ended, the button is at rest: it is rendered when there is an
    image, without spinner, labelled ["Generate Edited Image"], and enabled
    exactly when the instruction is not blank. *)
Theorem button_at_rest (process : option Process) (sys : System) :
  ui_reachable sys -> pending sys = [] ->
  submit_button (render process (store sys))
  = match uploadedImage (store sys) with
    | Some _ =>
        Some {| disabled := negb (truthy (trim (userPrompt (store sys))));
                spinner := false;
                label := lit "Generate Edited Image" |}
    | None => None
    end.
Proof.
  intros R Hp. destruct (ui_invariant sys R) as (_ & [Hl _] & _).
  assert (L : isLoading (store sys) = false).
  { destruct (isLoading (store sys)); [ | reflexivity ].
    now elim (Hl eq_refl). }
  unfold render; cbn [submit_button]. rewrite L.
  destruct (uploadedImage (store sys)); reflexivity.
Qed.

Lemma button_at_rest_witness :
  submit_button (render None ready) = Some idle_button.
Proof.
  assert (R : ui_reachable {| store := ready; pending := [] |}).
  { eapply ui_reachable_step;
      [ eapply ui_reachable_step; [ apply ui_reachable_start | ] | ].
    - apply (ui_upload initial [] jpeg_file (lit "blob:preview")).
    - apply (ui_type _ [] (lit "make the sky purple")). discriminate. }
  exact (button_at_rest None _ R eq_refl).
Defined.

(** X12. While a run is in flight the button is rendered, disabled, with the
    spinner; its label is ["Analyzing Image & Prompt..."] in state
    [LoadingDescriptivePrompt] and ["Generating Image..."] in every other
    state, also in [Idle] after an upload during the run. *)
Theorem button_in_flight (process : option Process) (sys : System) :
  ui_reachable sys -> pending sys <> [] ->
  submit_button (render process (store sys))
  = Some (busy_button
            match appState (store sys) with
            | LoadingDescriptivePrompt => lit "Analyzing Image & Prompt..."
            | _ => lit "Generating Image..."
            end).
Proof.
  intros R Hp. destruct (ui_invariant sys R) as (_ & [_ Hl] & Hi).
  specialize (Hl Hp). specialize (Hi Hp).
  unfold render; cbn [submit_button]. rewrite Hl.
  destruct (uploadedImage (store sys)); [ reflexivity | now elim Hi ].
Qed.

Lemma button_in_flight_witness :
  submit_button (render None (commit ready (submit_entry uploaded)))
  = Some (busy_button (lit "Analyzing Image & Prompt...")).
Proof.
  assert (R : ui_reachable
                {| store := commit ready (submit_entry uploaded);
                   pending := [ reading uploaded (userPrompt ready) ] |}).
  { eapply ui_reachable_step;
      [ eapply ui_reachable_step;
        [ eapply ui_reachable_step; [ apply ui_reachable_start | ] | ] | ].
    - apply (ui_upload initial [] jpeg_file (lit "blob:preview")).
    - apply (ui_type _ [] (lit "make the sky purple")). discriminate.
    - apply (ui_click None ready [] idle_button None); reflexivity. }
  assert (F : [ reading uploaded (userPrompt ready) ] <> []) by discriminate.
  exact (button_in_flight None _ R F).
Defined.

(** X14. An upload does not cancel a run in flight.  The user may upload while the
    image is awaited; the upload resets [appState] to [Idle] but leaves the
    loading flag and the run alone, and when the image arrives the state goes
    from [Idle] straight to [Success], showing next to the new upload the
    image generated for the old one. *)
Theorem upload_during_run (s : Store) (ps ps' : list Pending)
    (f : File) (url imageBytes : jsstring) :
  let uploaded_over :=
    {| store := commit s (handleImageUpload f url);
       pending := ps ++ awaiting_image :: ps' |} in
  let arrived :=
    {| store := commit (store uploaded_over) (image_fulfilled imageBytes);
       pending := ps ++ ps' |} in
  ui_step {| store := s; pending := ps ++ awaiting_image :: ps' |} uploaded_over
  /\ ui_step uploaded_over arrived
  /\ appState (store uploaded_over) = Idle
  /\ isLoading (store uploaded_over) = isLoading s
  /\ appState (store arrived) = Success
  /\ uploadedImage (store arrived) = Some {| file := f; previewUrl := url |}
  /\ generatedImageUrl (store arrived)
       = Some (lit "data:image/jpeg;base64," ++ imageBytes)
  /\ allowed (Idle, Success) = false.
Proof.
  intros uploaded_over arrived. repeat apply conj; try reflexivity.
  - apply ui_upload.
  - exact (ui_settle (store uploaded_over) ps ps' awaiting_image
             (promise_settled (Fulfilled imageBytes)) _ _ eq_refl).
Qed.

(** ** The three answers of [getApiKeyStatus] *)

Lemma status_cases (key : jsstring) :
  (if negb (truthy key) then status_not_configured
   else if jsstring_eqb key (lit "YOUR_API_KEY") || Nat.ltb (length key) 10
        then status_placeholder else status_detected)
  = match key with
    | [] => status_not_configured
    | _ :: _ =>
        if jsstring_eqb key (lit "YOUR_API_KEY") || Nat.ltb (length key) 10
        then status_placeholder else status_detected
    end.
Proof. destruct key; reflexivity. Qed.

(** X15. The key is reported as not configured exactly when [process], its
    [env] or the key is missing, or the key is the empty string. *)
Theorem not_configured_iff (process : option Process) :
  getApiKeyStatus process = status_not_configured
  <-> api_key process = None \/ api_key process = Some [].
Proof.
  rewrite getApiKeyStatus_api_key.
  destruct (api_key process) as [key|]; [ | split; auto ].
  rewrite status_cases. destruct key as [|c key].
  - split; auto.
  - split.
    + destruct (_ || _); intros H; vm_compute in H; discriminate H.
    + intros [H | H]; discriminate H.
Qed.

(** X16. The view shows the green ["Gemini API Ready"] line exactly when the key
    has at least ten code units and is not the literal ["YOUR_API_KEY"]; in
    every other case it shows the status in red. *)
Theorem ready_line_iff (process : option Process) (s : Store) :
  (status_line (render process s) = text_green (lit "Gemini API Ready")
   <-> exists key, api_key process = Some key
         /\ (10 <= length key)%nat /\ key <> lit "YOUR_API_KEY")
  /\ (status_line (render process s) = text_green (lit "Gemini API Ready")
      \/ status_line (render process s) = text_red (getApiKeyStatus process)).
Proof.
  unfold render; cbn [status_line]. rewrite getApiKeyStatus_api_key.
  destruct (api_key process) as [key|].
  2:{ split; [ split | right; reflexivity ].
      - intros H; vm_compute in H; discriminate H.
      - intros (key & E & _); discriminate E. }
  rewrite status_cases. destruct key as [|c key].
  { split; [ split | right; reflexivity ].
    - intros H; vm_compute in H; discriminate H.
    - intros (key & E & L & _). injection E as <-. cbn in L. lia. }
  destruct (jsstring_eqb (c :: key) (lit "YOUR_API_KEY")) eqn:Eq; cbn [orb].
  { apply jsstring_eqb_eq in Eq.
    split; [ split | right; reflexivity ].
    - intros H; vm_compute in H; discriminate H.
    - intros (k & E & _ & Hne). injection E as <-. contradiction. }
  destruct (Nat.ltb (length (c :: key)) 10) eqn:Hlt.
  { apply Nat.ltb_lt in Hlt.
    split; [ split | right; reflexivity ].
    - intros H; vm_compute in H; discriminate H.
    - intros (k & E & L & _). injection E as <-. lia. }
  apply Nat.ltb_ge in Hlt.
  split; [ split | left; reflexivity ].
  - intros _. exists (c :: key). repeat split; [ exact Hlt | ].
    intros H. apply jsstring_eqb_eq in H. congruence.
  - intros _. reflexivity.
Qed.
